(** * nsq.message: the response-once guard and the client-side timeout

    A shallow embedding of [src/nsq/message.py] (class [Message]) and the
    properties of its disposition API ([finish], [requeue], [touch]) and of
    its timeout subsystem ([_set_timeout], [_clear_timeout], [is_alive]).

    A [Message] is a mutable Python object.  The embedding threads the whole
    observable world through every method: the message's attributes, the
    [PeriodicCallback] objects the io loop still knows about, and the list of
    [trigger] calls made so far, and what the registered listeners do when
    they are called.  A method either returns a value or raises; attribute
    writes made before a raise stay in the world, as in Python. *)

From Stdlib Require Import ZArith Bool List Lia.
From stdpp Require Import base option list strings gmap.

Local Open Scope string_scope.
Local Open Scope list_scope.

(** ** Collaborators *)

(** Modelled from the spec: the event names of [nsq/event.py], which is not
    part of the sources at hand; section 6 lists the four notifications this
    class emits. *)
Inductive EventName : Type :=
  | FINISH
  | REQUEUE
  | TOUCH
  | MESSAGE_TIMEOUT.

(** The connection object handed to [_set_timeout].  The message reads its
    [msg_timeout] attribute and calls its [trigger]; [conn_id] tells two
    connection objects apart. *)
Record AsyncConn : Type := {
  conn_id : nat;
  msg_timeout : Z
}.

(** Python values that travel through [**kwargs] and notification contexts.
    [VMessage] is a reference to the message itself ([self]). *)
Inductive value : Type :=
  | VNone
  | VBool (b : bool)
  | VInt (z : Z)
  | VStr (s : string)
  | VMessage
  | VConn (c : AsyncConn).

Inductive exn : Type :=
  | AssertionError
  | TypeError
  | AttributeError
  | ValueError
  | Exception (what : string).

Inductive outcome (A : Type) : Type :=
  | Returned (a : A)
  | Raised (e : exn).
Arguments Returned {A} a.
Arguments Raised {A} e.

(** [tornado.ioloop.PeriodicCallback], as far as this class uses it: a handle
    with [start], [stop] and [is_running], whose constructor refuses a
    period that is not positive.  [callback_conn] is the [async_conn]
    captured by the closure [callback] the handle was built with. *)
Record PeriodicCallback : Type := {
  callback_conn : AsyncConn;
  callback_time : Z;
  _running : bool
}.

Definition start (pc : PeriodicCallback) : PeriodicCallback :=
  {| callback_conn := callback_conn pc;
     callback_time := callback_time pc;
     _running := true |}.

Definition stop (pc : PeriodicCallback) : PeriodicCallback :=
  {| callback_conn := callback_conn pc;
     callback_time := callback_time pc;
     _running := false |}.

Definition is_running (pc : PeriodicCallback) : bool := _running pc.

(** ** The message object *)

Record Message : Type := {
  _async_enabled : bool;
  _has_responded : bool;
  id : string;
  body : string;
  timestamp : Z;
  attempts : Z;
  timeout : option PeriodicCallback;
  conn : option AsyncConn
}.

(** [Message.__init__] *)
Definition __init__ (id0 body0 : string) (timestamp0 attempts0 : Z) : Message :=
  {| _async_enabled := false;
     _has_responded := false;
     id := id0;
     body := body0;
     timestamp := timestamp0;
     attempts := attempts0;
     timeout := None;
     conn := None |}.

Definition set__async_enabled (b : bool) (m : Message) : Message :=
  {| _async_enabled := b;
     _has_responded := _has_responded m;
     id := id m; body := body m;
     timestamp := timestamp m; attempts := attempts m;
     timeout := timeout m; conn := conn m |}.

Definition set__has_responded (b : bool) (m : Message) : Message :=
  {| _async_enabled := _async_enabled m;
     _has_responded := b;
     id := id m; body := body m;
     timestamp := timestamp m; attempts := attempts m;
     timeout := timeout m; conn := conn m |}.

Definition set_timeout (t : option PeriodicCallback) (m : Message) : Message :=
  {| _async_enabled := _async_enabled m;
     _has_responded := _has_responded m;
     id := id m; body := body m;
     timestamp := timestamp m; attempts := attempts m;
     timeout := t; conn := conn m |}.

Definition set_conn (c : option AsyncConn) (m : Message) : Message :=
  {| _async_enabled := _async_enabled m;
     _has_responded := _has_responded m;
     id := id m; body := body m;
     timestamp := timestamp m; attempts := attempts m;
     timeout := timeout m; conn := c |}.

(** ** Notifications *)

(** The object [trigger] is called on. *)
Inductive Target : Type :=
  | OnMessage
  | OnConn (c : AsyncConn).

(** One call of [trigger]: the object it was called on, the event name, the
    keyword context, and the attributes of the message at that moment, which
    is what a listener invoked synchronously reads through the reference. *)
Record Notification : Type := {
  target : Target;
  name : EventName;
  context : gmap string value;
  seen : Message
}.

(** ** The world and the method monad *)

(** [retired] holds the [PeriodicCallback] objects that [self.timeout] once
    referred to and that [_set_timeout] has replaced; the io loop fires any
    handle that is running, whether or not the message still refers to it.
    [listeners] stands for the handlers registered on the message and on its
    connections: given the notifications so far, the last one being the one
    delivered, they return ([None]) or one of them raises. *)
Record World : Type := {
  msg : Message;
  retired : list PeriodicCallback;
  log : list Notification;
  listeners : list Notification -> option exn
}.

Definition new_world (l : list Notification -> option exn) (m : Message)
  : World :=
  {| msg := m; retired := []; log := []; listeners := l |}.

Definition M (A : Type) : Type := World -> World * outcome A.

Definition ret {A : Type} (a : A) : M A := fun w => (w, Returned a).

Definition raise {A : Type} (e : exn) : M A := fun w => (w, Raised e).

Definition bind {A B : Type} (m : M A) (k : A -> M B) : M B :=
  fun w =>
    match m w with
    | (w', Returned a) => k a w'
    | (w', Raised e) => (w', Raised e)
    end.

Notation "'let*' x ':=' m 'in' k" := (bind m (fun x => k))
  (at level 10, x name, m at level 100, k at level 200).
Notation "m '>>>' k" := (bind m (fun _ => k))
  (at level 90, right associativity).

Definition self : M Message := fun w => (w, Returned (msg w)).

Definition update (f : Message -> Message) : M unit :=
  fun w => ({| msg := f (msg w); retired := retired w; log := log w;
               listeners := listeners w |},
            Returned tt).

(** Python's [assert]. *)
Definition assert (b : bool) : M unit :=
  if b then ret tt else raise AssertionError.

(** Modelled from the spec: [EventedMixin.trigger] of [nsq/event.py], which
    is not part of the sources at hand.  Section 4.1: the handlers registered
    for the event run synchronously, in the caller's turn, with the keyword
    context, and an error of a handler is not swallowed.  The handlers are
    the collaborators' code; the call is recorded, and it raises what the
    listeners raise. *)
Definition trigger (t : Target) (n : EventName) (ctx : gmap string value)
  : M unit :=
  fun w =>
    let lg := log w ++ [{| target := t; name := n; context := ctx;
                           seen := msg w |}] in
    ({| msg := msg w; retired := retired w; log := lg;
        listeners := listeners w |},
     match listeners w lg with
     | Some e => Raised e
     | None => Returned tt
     end).

(** What the caller of a method gets whose last statement is a [trigger]
    that leaves the notifications [lg]. *)
Definition answer (w : World) (lg : list Notification) : outcome value :=
  match listeners w lg with
  | Some e => Raised e
  | None => Returned VNone
  end.

(** ** Timeout subsystem *)

(** [Message._clear_timeout]: a [PeriodicCallback] object is always truthy,
    so [if self.timeout] tests for [None]. *)
Definition _clear_timeout : M unit :=
  update (fun m =>
    match timeout m with
    | Some pc => set_timeout (Some (stop pc)) m
    | None => m
    end).

(** The closure [callback] built by [_set_timeout]; [async_conn] is the
    captured argument, [self] the message.  Both keywords of the context are
    bound to [self]. *)
Definition callback (async_conn : AsyncConn) : M unit :=
  trigger (OnConn async_conn) MESSAGE_TIMEOUT
          (<["conn" := VMessage]> (<["message" := VMessage]> ∅)) >>>
  let* m := self in
  match timeout m with
  | None => raise AttributeError
  | Some pc => if is_running pc then _clear_timeout else ret tt
  end.

(** The constructor call in [_set_timeout].  The constructor raises
    [ValueError] for a period that is not positive, and then [self.timeout]
    is not assigned.  Otherwise the handle [self.timeout] referred to so far
    stays known to the io loop, and [self.timeout] now refers to a fresh
    handle, not yet started. *)
Definition new_PeriodicCallback (c : AsyncConn) : M unit :=
  fun w =>
    if (msg_timeout c <=? 0)%Z
    then (w, Raised ValueError)
    else
      ({| msg := set_timeout
                   (Some {| callback_conn := c;
                            callback_time := msg_timeout c;
                            _running := false |})
                   (msg w);
          retired := match timeout (msg w) with
                     | Some old => retired w ++ [old]
                     | None => retired w
                     end;
          log := log w;
          listeners := listeners w |},
       Returned tt).

(** [self.timeout.start()] / [self.timeout.stop()] on the current handle. *)
Definition timeout_start : M unit :=
  let* m := self in
  match timeout m with
  | None => raise AttributeError
  | Some pc => update (set_timeout (Some (start pc)))
  end.

(** [Message._set_timeout].  [touch] passes [self.conn], which is [None] on
    a message that never had a connection recorded; reading [msg_timeout]
    from [None] raises. *)
Definition _set_timeout (async_conn : option AsyncConn) : M unit :=
  update (set_conn async_conn) >>>
  _clear_timeout >>>
  match async_conn with
  | None => raise AttributeError
  | Some c => new_PeriodicCallback c >>> timeout_start
  end.

(** [Message.is_alive] *)
Definition is_alive : M value :=
  let* m := self in
  match timeout m with
  | None => raise AssertionError
  | Some pc => ret (VBool (is_running pc))
  end.

(** ** Flags *)

Definition enable_async : M value :=
  update (set__async_enabled true) >>> ret VNone.

Definition is_async : M value :=
  let* m := self in ret (VBool (_async_enabled m)).

Definition has_responded : M value :=
  let* m := self in ret (VBool (_has_responded m)).

(** ** Disposition API *)

(** [Message.finish] *)
Definition finish : M value :=
  let* m := self in
  assert (negb (_has_responded m)) >>>
  update (set__has_responded true) >>>
  _clear_timeout >>>
  trigger OnMessage FINISH (<["message" := VMessage]> ∅) >>>
  ret VNone.

(** [isinstance(v, int)]: [bool] is a subclass of [int]. *)
Definition as_int (v : value) : option Z :=
  match v with
  | VInt z => Some z
  | VBool b => Some (if b then 1%Z else 0%Z)
  | _ => None
  end.

(** Lines 143-144 of [requeue]: the update of the callee's own [kwargs]
    dict. *)
Definition requeue_kwargs (kwargs : gmap string value) : gmap string value :=
  match kwargs !! "delay" with
  | Some v =>
      match as_int v with
      | Some z =>
          if (0 <? z)%Z
          then <["time_ms" := VInt (z * 1000)]> kwargs
          else kwargs
      | None => kwargs
      end
  | None => kwargs
  end.

(** The keywords the call of [trigger] in [requeue] binds by itself:
    [message], passed explicitly at line 149, and the named parameters
    [self] and [name] of [EventedMixin.trigger] in [nsq/event.py], which is
    not part of the sources at hand. *)
Definition trigger_keywords : list string := ["message"; "name"; "self"].

Definition has_key (kwargs : gmap string value) (k : string) : bool :=
  match kwargs !! k with
  | Some _ => true
  | None => false
  end.

Definition clashes (kwargs : gmap string value) : bool :=
  existsb (has_key kwargs) trigger_keywords.

(** The call [self.trigger(event.REQUEUE, message=self, **kwargs)]: a
    [kwargs] that itself binds one of these keywords makes the call raise
    [TypeError] (multiple values for one argument) before [trigger] runs;
    by then the flag is set and the handle stopped.  (A keyword [self]
    cannot reach this line: passing it already fails at the call of
    [requeue].) *)
Definition trigger_requeue (kwargs : gmap string value) : M unit :=
  if clashes kwargs
  then raise TypeError
  else trigger OnMessage REQUEUE (<["message" := VMessage]> kwargs).

(** [Message.requeue] *)
Definition requeue (kwargs : gmap string value) : M value :=
  let kwargs := requeue_kwargs kwargs in
  let* m := self in
  assert (negb (_has_responded m)) >>>
  update (set__has_responded true) >>>
  _clear_timeout >>>
  trigger_requeue kwargs >>>
  ret VNone.

(** [Message.touch] *)
Definition touch : M value :=
  let* m := self in
  assert (negb (_has_responded m)) >>>
  (match timeout m with
   | Some _ => _set_timeout (conn m)
   | None => ret tt
   end) >>>
  trigger OnMessage TOUCH (<["message" := VMessage]> ∅) >>>
  ret VNone.

(** ** The io loop and call sequences *)

(** A handle the io loop may fire: the one [self.timeout] refers to, or one
    that was replaced earlier. *)
Inductive TimerRef : Type :=
  | Current
  | Retired (i : nat).

Definition lookup_timer (r : TimerRef) (w : World) : option PeriodicCallback :=
  match r with
  | Current => timeout (msg w)
  | Retired i => retired w !! i
  end.

(** The io loop reaching the deadline of handle [r]: a handle that is not
    running does not call its callback, and an exception of the callback is
    logged by the io loop, not passed on; a handle that is still running
    afterwards is scheduled again. *)
Definition _run (r : TimerRef) : M value :=
  fun w =>
    match lookup_timer r w with
    | Some pc =>
        if is_running pc
        then (fst (callback (callback_conn pc) w), Returned VNone)
        else (w, Returned VNone)
    | None => (w, Returned VNone)
    end.

(** Everything that can happen to a message: a method call by the consumer
    or the connection, or a timer deadline. *)
Inductive Call : Type :=
  | Cfinish
  | Crequeue (kwargs : gmap string value)
  | Ctouch
  | Cenable_async
  | Cis_async
  | Chas_responded
  | Cis_alive
  | C_set_timeout (async_conn : AsyncConn)
  | C_clear_timeout
  | Cfire (r : TimerRef).

Definition call (c : Call) : M value :=
  match c with
  | Cfinish => finish
  | Crequeue kwargs => requeue kwargs
  | Ctouch => touch
  | Cenable_async => enable_async
  | Cis_async => is_async
  | Chas_responded => has_responded
  | Cis_alive => is_alive
  | C_set_timeout c => _set_timeout (Some c) >>> ret VNone
  | C_clear_timeout => _clear_timeout >>> ret VNone
  | Cfire r => _run r
  end.

(** The world after a sequence of calls; a call that raises leaves its
    partial effects and the sequence goes on, as when the caller catches. *)
Fixpoint exec (cs : list Call) (w : World) : World :=
  match cs with
  | [] => w
  | c :: cs' => exec cs' (fst (call c w))
  end.

Definition returned {A : Type} (o : outcome A) : bool :=
  match o with
  | Returned _ => true
  | Raised _ => false
  end.

Definition disposition (c : Call) : bool :=
  match c with
  | Cfinish | Crequeue _ => true
  | _ => false
  end.

(** [c] is a [finish] or [requeue] that returns normally in [w]. *)
Definition succeeds (c : Call) (w : World) : bool :=
  disposition c && returned (snd (call c w)).

(** Number of disposition calls of [cs] that return normally, from [w]. *)
Fixpoint successes (cs : list Call) (w : World) : nat :=
  match cs with
  | [] => 0
  | c :: cs' =>
      (if succeeds c w then 1 else 0) + successes cs' (fst (call c w))
  end.

Definition rearms (c : Call) : bool :=
  match c with
  | Ctouch | C_set_timeout _ => true
  | _ => false
  end.

(** Number of [MESSAGE_TIMEOUT] notifications in a log. *)
Definition is_timeout (n : Notification) : bool :=
  match name n with
  | MESSAGE_TIMEOUT => true
  | _ => false
  end.

Definition firings (w : World) : nat :=
  length (List.filter is_timeout (log w)).

(** No handle other than the current one is running. *)
Definition retired_stopped (w : World) : Prop :=
  Forall (fun pc => _running pc = false) (retired w).

(** A message that refers to a handle has its connection recorded. *)
Definition conn_recorded (w : World) : Prop :=
  is_Some (timeout (msg w)) -> is_Some (conn (msg w)).

(** Worlds that arise from a freshly constructed message, whatever its
    listeners do. *)
Definition reachable (w : World) : Prop :=
  exists l id0 body0 timestamp0 attempts0 cs,
    w = exec cs (new_world l (__init__ id0 body0 timestamp0 attempts0)).

(** The handlers of [MESSAGE_TIMEOUT] return normally. *)
Definition timeout_handlers_return (w : World) : Prop :=
  forall (lg : list Notification) (n : Notification),
    name n = MESSAGE_TIMEOUT -> listeners w (lg ++ [n]) = None.

(** [c] is a call that gives the message a handle whatever its state: a
    [_set_timeout] whose connection has a positive [msg_timeout]. *)
Definition arms (c : Call) : bool :=
  match c with
  | C_set_timeout c => (0 <? msg_timeout c)%Z
  | _ => false
  end.

(** 1 while the current handle is running, 0 otherwise: the firings the
    message can still cause without being re-armed. *)
Definition armed (w : World) : nat :=
  match timeout (msg w) with
  | Some pc => if _running pc then 1 else 0
  | None => 0
  end.

(** ** Observations on calls, logs and handles *)

Definition enables (c : Call) : bool :=
  match c with
  | Cenable_async => true
  | _ => false
  end.

(** Notifications that tell the listener to answer the broker for good. *)
Definition is_response (n : Notification) : bool :=
  match name n with
  | FINISH | REQUEUE => true
  | _ => false
  end.

(** Number of [FINISH] and [REQUEUE] notifications triggered so far. *)
Definition responses (w : World) : nat :=
  length (List.filter is_response (log w)).

(** The handle of a message seen by a listener is absent or stopped. *)
Definition handle_stopped (m : Message) : Prop :=
  match timeout m with
  | Some pc => _running pc = false
  | None => True
  end.

(** The handle of a message seen by a listener is absent or running. *)
Definition handle_running (m : Message) : Prop :=
  match timeout m with
  | Some pc => _running pc = true
  | None => True
  end.

(** The shape of the four [trigger] calls of the class: where the event is
    triggered, its context, and the state of the message at that moment. *)
Definition well_formed (n : Notification) : Prop :=
  match name n with
  | FINISH =>
      target n = OnMessage /\
      context n = <["message" := VMessage]> ∅ /\
      _has_responded (seen n) = true /\ handle_stopped (seen n)
  | REQUEUE =>
      target n = OnMessage /\
      context n !! "message" = Some VMessage /\
      _has_responded (seen n) = true /\ handle_stopped (seen n)
  | TOUCH =>
      target n = OnMessage /\
      context n = <["message" := VMessage]> ∅ /\
      _has_responded (seen n) = false /\ handle_running (seen n)
  | MESSAGE_TIMEOUT =>
      (exists c, target n = OnConn c) /\
      context n = <["conn" := VMessage]> (<["message" := VMessage]> ∅) /\
      handle_running (seen n) /\ is_Some (timeout (seen n))
  end.

(** The handle of the message was built from a connection with a positive
    [msg_timeout], and while it runs that connection is the recorded one. *)
Definition handle_of_conn (w : World) : Prop :=
  match timeout (msg w) with
  | Some pc =>
      callback_time pc = msg_timeout (callback_conn pc) /\
      (0 < callback_time pc)%Z /\
      (_running pc = true -> conn (msg w) = Some (callback_conn pc))
  | None => True
  end.

(** ** Sample objects *)

(** Listeners that always return. *)
Definition quiet : list Notification -> option exn := fun _ => None.

(** Listeners of which the one for [MESSAGE_TIMEOUT] raises. *)
Definition loud : list Notification -> option exn :=
  fun lg =>
    match last lg with
    | Some n => if is_timeout n then Some (Exception "handler") else None
    | None => None
    end.

Definition conn1 : AsyncConn := {| conn_id := 1; msg_timeout := 60000 |}.

Definition armed_world : World :=
  exec [C_set_timeout conn1] (new_world quiet (__init__ "id" "body" 1 1)).

Definition fresh_world : World :=
  new_world quiet (__init__ "id" "body" 1 1).

Definition loud_world : World :=
  exec [C_set_timeout conn1] (new_world loud (__init__ "id" "body" 1 1)).

(** A connection without a usable [msg_timeout]. *)
Definition conn0 : AsyncConn := {| conn_id := 3; msg_timeout := 0 |}.

Definition delay5 : gmap string value := <["delay" := VInt 5]> ∅.

Definition fired_world : World :=
  exec [Cfire Current] armed_world.

Definition conn2 : AsyncConn := {| conn_id := 2; msg_timeout := 30000 |}.

Definition no_backoff : gmap string value :=
  <["backoff" := VBool false]> (<["delay" := VInt 5]> ∅).

Definition delay_text : gmap string value :=
  <["delay" := VStr "5"]> (<["backoff" := VBool false]> ∅).



(** * Properties *)

Ltac unfold_monad :=
  unfold trigger_requeue, trigger, answer, assert, update, self, bind, ret,
    raise in *.

Ltac unfold_methods :=
  unfold call, finish, requeue, touch, enable_async, is_async, has_responded,
    is_alive, _run, _set_timeout, callback, timeout_start,
    new_PeriodicCallback, _clear_timeout, lookup_timer, is_running in *;
  unfold_monad.

Ltac world_fields w :=
  destruct w as [[ae hr i b ts att tmo cn] rt lg ls]; simpl in *.

(** Case analysis on everything a method branches on. *)
Ltac method_cases :=
  repeat (simpl in *;
          match goal with
          | |- context [match ?x with _ => _ end] => is_var x; destruct x
          | |- context [match ?x with _ => _ end] =>
              lazymatch type of x with
              | prod _ _ => fail
              | _ => destruct x eqn:?
              end
          end).

(** ** The response-once guard *)

Lemma finish_after_response (w : World) :
  _has_responded (msg w) = true ->
  finish w = (w, Raised AssertionError).
Proof.
  intros H. unfold finish. unfold_monad. simpl. now rewrite H.
Qed.

Lemma requeue_after_response (kwargs : gmap string value) (w : World) :
  _has_responded (msg w) = true ->
  requeue kwargs w = (w, Raised AssertionError).
Proof.
  intros H. unfold requeue. unfold_monad. simpl. now rewrite H.
Qed.

Lemma disposition_after_response (c : Call) (w : World) :
  disposition c = true ->
  _has_responded (msg w) = true ->
  call c w = (w, Raised AssertionError).
Proof.
  destruct c; simpl; try discriminate; intros _ H.
  - now apply finish_after_response.
  - now apply requeue_after_response.
Qed.

(** No call ever resets the flag. *)
Lemma responded_stays (c : Call) (w : World) :
  _has_responded (msg w) = true ->
  _has_responded (msg (fst (call c w))) = true.
Proof.
  intros H. world_fields w. subst hr.
  destruct c; unfold_methods; simpl; method_cases; simpl; reflexivity.
Qed.

Lemma responded_stays_exec (cs : list Call) (w : World) :
  _has_responded (msg w) = true ->
  _has_responded (msg (exec cs w)) = true.
Proof.
  revert w. induction cs as [|c cs IH]; intros w H; simpl.
  - assumption.
  - apply IH. now apply responded_stays.
Qed.

(** A disposition call that returns found the flag unset and leaves it set. *)
Lemma succeeds_sets_responded (c : Call) (w : World) :
  succeeds c w = true ->
  _has_responded (msg w) = false /\
  _has_responded (msg (fst (call c w))) = true.
Proof.
  unfold succeeds. intros H. apply andb_true_iff in H as [Hd Hr].
  destruct (_has_responded (msg w)) eqn:Hresp.
  - rewrite (disposition_after_response c w Hd Hresp) in Hr. discriminate.
  - split; [reflexivity|].
    world_fields w. subst hr.
    destruct c; simpl in Hd; try discriminate;
      unfold_methods; simpl in *; method_cases; reflexivity.
Qed.

Lemma successes_after_response (cs : list Call) (w : World) :
  _has_responded (msg w) = true ->
  successes cs w = 0.
Proof.
  revert w. induction cs as [|c cs IH]; intros w H; simpl.
  - reflexivity.
  - rewrite (IH _ (responded_stays c w H)).
    destruct (succeeds c w) eqn:Hs; [|reflexivity].
    apply succeeds_sets_responded in Hs as [Hs _]. congruence.
Qed.

Lemma exec_app (cs1 cs2 : list Call) (w : World) :
  exec (cs1 ++ cs2) w = exec cs2 (exec cs1 w).
Proof.
  revert w. induction cs1 as [|c cs1 IH]; intros w; simpl.
  - reflexivity.
  - apply IH.
Qed.

(** C1: in every sequence of calls, from any state of the message, at most
    one [finish]/[requeue] returns normally, and once one has, every later
    [finish] or [requeue] fails its assertion. *)
Theorem respond_at_most_once (w : World) (cs : list Call) :
  successes cs w <= 1 /\
  forall (pre mid post : list Call) (c c' : Call),
    cs = pre ++ c :: mid ++ c' :: post ->
    succeeds c (exec pre w) = true ->
    disposition c' = true ->
    snd (call c' (exec (pre ++ c :: mid) w)) = Raised AssertionError.
Proof.
  split.
  - revert w. induction cs as [|c cs IH]; intros w; simpl.
    + lia.
    + destruct (succeeds c w) eqn:Hs.
      * apply succeeds_sets_responded in Hs as [_ Hs].
        rewrite (successes_after_response cs _ Hs). lia.
      * apply IH.
  - intros pre mid post c c' _ Hs Hd.
    apply succeeds_sets_responded in Hs as [_ Hs].
    rewrite exec_app. simpl.
    rewrite (disposition_after_response c' _ Hd); [reflexivity|].
    now apply responded_stays_exec.
Qed.

(** C10: a [finish] or [requeue] on a message that has responded raises
    [AssertionError] and leaves the whole world as it was: the flag, the
    timer handle, the recorded connection, the async flag, and the list of
    notifications (no [FINISH], no [REQUEUE]). *)
Theorem disposition_failure_atomic (w : World) (kwargs : gmap string value) :
  _has_responded (msg w) = true ->
  finish w = (w, Raised AssertionError) /\
  requeue kwargs w = (w, Raised AssertionError).
Proof.
  intros H. split.
  - now apply finish_after_response.
  - now apply requeue_after_response.
Qed.

(** ** [finish] *)

(** C2: [finish] on a message that has not responded leaves the flag set
    and the handle, if any, stopped; the [FINISH] notification, on the
    message and with the message as its only context, is triggered last:
    the message a listener sees has the flag set and the handle stopped.
    [finish] then returns, unless a listener raises.  Afterwards [is_alive],
    on a message that has a handle, returns [False].  On a message that has
    responded, [finish] raises [AssertionError]. *)
Theorem finish_spec (w : World) :
  (_has_responded (msg w) = true ->
   finish w = (w, Raised AssertionError)) /\
  (_has_responded (msg w) = false ->
   let m := msg w in
   let m' := {| _async_enabled := _async_enabled m;
                _has_responded := true;
                id := id m; body := body m;
                timestamp := timestamp m; attempts := attempts m;
                timeout := stop <$> timeout m;
                conn := conn m |} in
   let lg := log w ++ [{| target := OnMessage;
                          name := FINISH;
                          context := <["message" := VMessage]> ∅;
                          seen := m' |}] in
   finish w =
     ({| msg := m'; retired := retired w; log := lg;
         listeners := listeners w |},
      answer w lg) /\
   (listeners w lg = None -> snd (finish w) = Returned VNone) /\
   (is_Some (timeout m) ->
    snd (is_alive (fst (finish w))) = Returned (VBool false))).
Proof.
  split.
  - apply finish_after_response.
  - intros H m m' lg.
    assert (Hfin : finish w =
      ({| msg := m'; retired := retired w; log := lg;
          listeners := listeners w |},
       answer w lg)).
    { subst m m' lg. world_fields w. subst hr.
      unfold finish, answer, _clear_timeout. unfold_monad. simpl.
      destruct tmo as [pc|]; unfold set_timeout, set__has_responded; simpl;
        match goal with
        | |- context [ls ?l] => destruct (ls l)
        end; reflexivity. }
    split; [exact Hfin|]. split.
    + intros Hl. rewrite Hfin. unfold answer. simpl. now rewrite Hl.
    + intros [pc Hpc]. rewrite Hfin. unfold is_alive. unfold_monad. simpl.
      subst m. rewrite Hpc. reflexivity.
Qed.

(** ** Frame: the broker's fields *)

Lemma call_frame (c : Call) (w : World) :
  id (msg (fst (call c w))) = id (msg w) /\
  body (msg (fst (call c w))) = body (msg w) /\
  timestamp (msg (fst (call c w))) = timestamp (msg w) /\
  attempts (msg (fst (call c w))) = attempts (msg w).
Proof.
  world_fields w.
  destruct c; unfold_methods; method_cases; auto.
Qed.

(** C8: [__init__] stores [id], [body], [timestamp] and [attempts] as given,
    and no call ([finish], [requeue], [touch], [enable_async],
    [_set_timeout], [_clear_timeout], [is_alive], [is_async],
    [has_responded], a timer firing), from any state and in any sequence,
    changes them. *)
Theorem broker_fields_frame :
  (forall (c : Call) (w : World),
     id (msg (fst (call c w))) = id (msg w) /\
     body (msg (fst (call c w))) = body (msg w) /\
     timestamp (msg (fst (call c w))) = timestamp (msg w) /\
     attempts (msg (fst (call c w))) = attempts (msg w)) /\
  (forall (l : list Notification -> option exn)
          (id0 body0 : string) (timestamp0 attempts0 : Z) (cs : list Call),
     let m := msg (exec cs
                     (new_world l
                        (__init__ id0 body0 timestamp0 attempts0))) in
     id m = id0 /\ body m = body0 /\
     timestamp m = timestamp0 /\ attempts m = attempts0).
Proof.
  split.
  - apply call_frame.
  - intros l id0 body0 timestamp0 attempts0 cs.
    assert (Hgen : forall w,
      id (msg (exec cs w)) = id (msg w) /\
      body (msg (exec cs w)) = body (msg w) /\
      timestamp (msg (exec cs w)) = timestamp (msg w) /\
      attempts (msg (exec cs w)) = attempts (msg w)).
    { induction cs as [|c cs IH]; intros w; simpl.
      - auto.
      - destruct (IH (fst (call c w))) as (-> & -> & -> & ->).
        apply call_frame. }
    apply (Hgen (new_world l (__init__ id0 body0 timestamp0 attempts0))).
Qed.

(** ** [requeue] *)

Lemma has_key_requeue_kwargs (kwargs : gmap string value) (k : string) :
  k <> "time_ms" ->
  has_key (requeue_kwargs kwargs) k = has_key kwargs k.
Proof.
  intros Hk. unfold has_key, requeue_kwargs.
  destruct (kwargs !! "delay") as [v|]; [|reflexivity].
  destruct (as_int v) as [z|]; [|reflexivity].
  destruct (0 <? z)%Z; [|reflexivity].
  now rewrite lookup_insert_ne by congruence.
Qed.

(** Computing [time_ms] neither causes nor removes a clash. *)
Lemma clashes_requeue_kwargs (kwargs : gmap string value) :
  clashes (requeue_kwargs kwargs) = clashes kwargs.
Proof.
  unfold clashes, trigger_keywords. simpl.
  now rewrite !has_key_requeue_kwargs by discriminate.
Qed.

Lemma clashes_message (kwargs : gmap string value) :
  clashes kwargs = false -> kwargs !! "message" = None.
Proof.
  unfold clashes, trigger_keywords, has_key. simpl.
  destruct (kwargs !! "message"); [discriminate|reflexivity].
Qed.

(** What [requeue] does on a message that has not responded, when [kwargs]
    binds none of the keywords of the [trigger] call: one [REQUEUE]
    notification on the message, whose context is the updated [kwargs] plus
    [message]. *)
Lemma requeue_pending (kwargs : gmap string value) (w : World) :
  _has_responded (msg w) = false ->
  clashes kwargs = false ->
  let m := msg w in
  let m' := {| _async_enabled := _async_enabled m;
               _has_responded := true;
               id := id m; body := body m;
               timestamp := timestamp m; attempts := attempts m;
               timeout := stop <$> timeout m;
               conn := conn m |} in
  let lg := log w ++ [{| target := OnMessage;
                         name := REQUEUE;
                         context := <["message" := VMessage]>
                                      (requeue_kwargs kwargs);
                         seen := m' |}] in
  requeue kwargs w =
    ({| msg := m'; retired := retired w; log := lg;
        listeners := listeners w |},
     answer w lg).
Proof.
  intros H Hm m m' lg. subst m m' lg.
  pose proof (clashes_requeue_kwargs kwargs) as Hk. rewrite Hm in Hk.
  world_fields w. subst hr.
  unfold requeue, answer, _clear_timeout. unfold_monad. simpl.
  rewrite Hk.
  destruct tmo as [pc|]; unfold set_timeout, set__has_responded; simpl;
    match goal with
    | |- context [ls ?l] => destruct (ls l)
    end; reflexivity.
Qed.

(** C3: [requeue] on a message that has not responded, with [delay] an
    [int] of value [d] (and [kwargs] binding none of the keywords the call
    to [trigger] binds itself), triggers one [REQUEUE] notification on the
    message, and returns unless a listener raises.  If [d] is positive the
    context has [time_ms = d * 1000].  If [d] is 0, -1 or any other
    non-positive integer, the context is the caller's [kwargs] unchanged
    plus [message]: [delay] is what the caller passed, and [time_ms] is
    there only if the caller passed it. *)
Theorem requeue_delay_normalisation
  (w : World) (kwargs : gmap string value) (v : value) (d : Z) :
  _has_responded (msg w) = false ->
  kwargs !! "delay" = Some v ->
  as_int v = Some d ->
  clashes kwargs = false ->
  exists n : Notification,
    snd (requeue kwargs w) = answer w (log w ++ [n]) /\
    log (fst (requeue kwargs w)) = log w ++ [n] /\
    target n = OnMessage /\
    name n = REQUEUE /\
    ((0 < d)%Z -> context n !! "time_ms" = Some (VInt (d * 1000))) /\
    ((d <= 0)%Z ->
     context n = <["message" := VMessage]> kwargs /\
     context n !! "delay" = Some v /\
     context n !! "time_ms" = kwargs !! "time_ms").
Proof.
  intros H Hd Hv Hm.
  rewrite (requeue_pending kwargs w H Hm). simpl.
  eexists. split; [reflexivity|]. split; [reflexivity|].
  split; [reflexivity|]. split; [reflexivity|]. simpl.
  unfold requeue_kwargs. rewrite Hd, Hv. split.
  - intros Hpos. destruct (Z.ltb_spec 0 d) as [_|Hle]; [|lia].
    rewrite lookup_insert_ne by discriminate.
    now rewrite lookup_insert_eq.
  - intros Hle. destruct (Z.ltb_spec 0 d) as [Hlt|_]; [lia|].
    split; [reflexivity|].
    rewrite !lookup_insert_ne by discriminate. split; [exact Hd|reflexivity].
Qed.

(** C9: with [delay] an [int] of positive value [d], the context of the
    [REQUEUE] notification holds both [delay], as the caller passed it
    (seconds), and the new [time_ms]; it is the caller's [kwargs] with
    [time_ms] and [message] added, so no key is removed. *)
Theorem requeue_keeps_delay
  (w : World) (kwargs : gmap string value) (v : value) (d : Z) :
  _has_responded (msg w) = false ->
  kwargs !! "delay" = Some v ->
  as_int v = Some d ->
  (0 < d)%Z ->
  clashes kwargs = false ->
  exists n : Notification,
    log (fst (requeue kwargs w)) = log w ++ [n] /\
    name n = REQUEUE /\
    context n !! "delay" = Some v /\
    context n !! "time_ms" = Some (VInt (d * 1000)) /\
    context n =
      <["message" := VMessage]> (<["time_ms" := VInt (d * 1000)]> kwargs).
Proof.
  intros H Hd Hv Hpos Hm.
  assert (Hk : requeue_kwargs kwargs = <["time_ms" := VInt (d * 1000)]> kwargs).
  { unfold requeue_kwargs. rewrite Hd, Hv.
    destruct (Z.ltb_spec 0 d) as [_|Hle]; [reflexivity|lia]. }
  rewrite (requeue_pending kwargs w H Hm), Hk. simpl.
  eexists. split; [reflexivity|]. split; [reflexivity|]. simpl.
  split; [|split; [|reflexivity]].
  - rewrite !lookup_insert_ne by discriminate. exact Hd.
  - rewrite lookup_insert_ne by discriminate. now rewrite lookup_insert_eq.
Qed.

(** ** Invariants of the timeout subsystem *)

(** No call touches the listeners. *)
Lemma call_listeners (c : Call) (w : World) :
  listeners (fst (call c w)) = listeners w.
Proof.
  world_fields w.
  destruct c; unfold_methods; method_cases; reflexivity.
Qed.

Lemma exec_listeners (cs : list Call) (w : World) :
  listeners (exec cs w) = listeners w.
Proof.
  revert w. induction cs as [|c cs IH]; intros w; simpl.
  - reflexivity.
  - now rewrite IH, call_listeners.
Qed.

Lemma call_retired_stopped (c : Call) (w : World) :
  retired_stopped w -> retired_stopped (fst (call c w)).
Proof.
  unfold retired_stopped. intros H. world_fields w.
  destruct c; unfold_methods; method_cases; try assumption;
    apply Forall_app; (split; [assumption|]);
    repeat constructor.
Qed.

Lemma call_conn_recorded (c : Call) (w : World) :
  conn_recorded w -> conn_recorded (fst (call c w)).
Proof.
  unfold conn_recorded. intros H. world_fields w.
  destruct c; unfold_methods; method_cases; intros; simpl in *;
    try (apply H; assumption); try (eexists; reflexivity);
    try (apply H; eexists; reflexivity).
Qed.

Lemma exec_invariants (cs : list Call) (w : World) :
  retired_stopped w -> conn_recorded w ->
  retired_stopped (exec cs w) /\ conn_recorded (exec cs w).
Proof.
  revert w. induction cs as [|c cs IH]; intros w Hr Hc; simpl.
  - split; assumption.
  - apply IH.
    + now apply call_retired_stopped.
    + now apply call_conn_recorded.
Qed.

Lemma reachable_invariants (w : World) :
  reachable w -> retired_stopped w /\ conn_recorded w.
Proof.
  intros (l & id0 & body0 & timestamp0 & attempts0 & cs & ->).
  apply exec_invariants.
  - constructor.
  - intros [pc Hpc]. discriminate.
Qed.

Lemma reachable_new (l : list Notification -> option exn)
  (id0 body0 : string) (timestamp0 attempts0 : Z) :
  reachable (new_world l (__init__ id0 body0 timestamp0 attempts0)).
Proof.
  exists l, id0, body0, timestamp0, attempts0, []. reflexivity.
Qed.

Lemma reachable_call (c : Call) (w : World) :
  reachable w -> reachable (fst (call c w)).
Proof.
  intros (l & id0 & body0 & timestamp0 & attempts0 & cs & ->).
  exists l, id0, body0, timestamp0, attempts0, (cs ++ [c]).
  now rewrite exec_app.
Qed.

(** ** The timeout notification *)

(** A deadline on the running current handle: the notification goes to the
    connection the handle was armed with; both context keys hold the
    message.  The handle is stopped afterwards if the listeners return, and
    left running if one raises. *)
Lemma fire_current (w : World) (pc : PeriodicCallback) :
  timeout (msg w) = Some pc ->
  _running pc = true ->
  let lg := log w ++
            [{| target := OnConn (callback_conn pc);
                name := MESSAGE_TIMEOUT;
                context := <["conn" := VMessage]>
                             (<["message" := VMessage]> ∅);
                seen := msg w |}] in
  _run Current w =
    ({| msg := match listeners w lg with
               | None => set_timeout (Some (stop pc)) (msg w)
               | Some _ => msg w
               end;
        retired := retired w;
        log := lg;
        listeners := listeners w |},
     Returned VNone).
Proof.
  intros Ht Hr lg. subst lg. world_fields w. subst tmo.
  unfold_methods. simpl. rewrite Hr.
  match goal with
  | |- context [ls ?l] => destruct (ls l)
  end; simpl; rewrite ?Hr; reflexivity.
Qed.

(** C4: a fresh message armed with connection [conn1], deadline reached.
    The one notification is [MESSAGE_TIMEOUT], triggered on [conn1]; its
    context binds [conn] to the message itself and [message] to the message,
    and no key of the context holds the connection. *)
Theorem message_timeout_context :
  exists n : Notification,
    log (fst (call (Cfire Current) armed_world)) = [n] /\
    target n = OnConn conn1 /\
    name n = MESSAGE_TIMEOUT /\
    context n !! "message" = Some VMessage /\
    context n !! "conn" = Some VMessage /\
    forall (k : string) (c : AsyncConn), context n !! k <> Some (VConn c).
Proof.
  eexists. split; [reflexivity|]. simpl. repeat split.
  intros k c. destruct (decide (k = "conn")) as [->|Hk1].
  - rewrite lookup_insert_eq. discriminate.
  - rewrite lookup_insert_ne by congruence.
    destruct (decide (k = "message")) as [->|Hk2].
    + rewrite lookup_insert_eq. discriminate.
    + rewrite lookup_insert_ne by congruence. rewrite lookup_empty.
      discriminate.
Qed.

(** ** One firing per arm *)

Lemma firings_snoc (lg : list Notification) (n : Notification) :
  length (List.filter is_timeout (lg ++ [n])) =
  length (List.filter is_timeout lg) + (if is_timeout n then 1 else 0).
Proof.
  rewrite List.filter_app, length_app. simpl.
  destruct (is_timeout n); reflexivity.
Qed.

Lemma retired_not_running (rt : list PeriodicCallback) (i : nat)
  (pc : PeriodicCallback) :
  Forall (fun pc => _running pc = false) rt ->
  rt !! i = Some pc ->
  _running pc = false.
Proof.
  intros H Hi. rewrite Forall_lookup in H. exact (H i pc Hi).
Qed.

(** A call that does not re-arm never raises [firings + armed], as long as
    the handlers of [MESSAGE_TIMEOUT] return. *)
Lemma call_firings (c : Call) (w : World) :
  rearms c = false ->
  retired_stopped w ->
  timeout_handlers_return w ->
  firings (fst (call c w)) + armed (fst (call c w)) <= firings w + armed w.
Proof.
  unfold retired_stopped, timeout_handlers_return.
  intros Hc H Hq. world_fields w.
  destruct c; try discriminate; unfold armed, firings.
  8: { unfold_methods. destruct r as [|k]; simpl.
        - destruct tmo as [pc|]; simpl; [|lia].
          destruct (_running pc) eqn:Hr; simpl; [|rewrite Hr; lia].
          rewrite Hq by reflexivity. simpl. rewrite ?Hr.
          rewrite firings_snoc. simpl. lia.
        - destruct (rt !! k) as [pc|] eqn:Hk; simpl; [|lia].
          rewrite (retired_not_running rt k pc H Hk). simpl. lia. }
  all: unfold_methods; method_cases; simpl; rewrite ?firings_snoc; simpl;
    lia.
Qed.

Lemma exec_firings (cs : list Call) (w : World) :
  forallb (fun c => negb (rearms c)) cs = true ->
  retired_stopped w ->
  timeout_handlers_return w ->
  firings (exec cs w) + armed (exec cs w) <= firings w + armed w.
Proof.
  revert w. induction cs as [|c cs IH]; intros w Hcs Hw Hq; simpl in *.
  - lia.
  - apply andb_true_iff in Hcs as [Hc Hcs].
    apply negb_true_iff in Hc.
    pose proof (call_firings c w Hc Hw Hq) as Hstep.
    assert (Hq' : timeout_handlers_return (fst (call c w))).
    { unfold timeout_handlers_return. rewrite call_listeners. exact Hq. }
    pose proof (IH _ Hcs (call_retired_stopped c w Hw) Hq') as Hrest.
    lia.
Qed.

(** The log only grows. *)
Lemma call_firings_mono (c : Call) (w : World) :
  firings w <= firings (fst (call c w)).
Proof.
  world_fields w.
  destruct c; unfold firings; unfold_methods;
    method_cases; simpl; rewrite ?firings_snoc; simpl; lia.
Qed.

Lemma exec_firings_mono (cs : list Call) (w : World) :
  firings w <= firings (exec cs w).
Proof.
  revert w. induction cs as [|c cs IH]; intros w; simpl.
  - lia.
  - pose proof (call_firings_mono c w). pose proof (IH (fst (call c w))).
    lia.
Qed.

(** [_set_timeout] with a connection whose [msg_timeout] is positive: the
    message refers to a fresh running handle built from that connection,
    and the old handle, stopped, is retired. *)
Lemma _set_timeout_Some (c : AsyncConn) (w : World) :
  (0 < msg_timeout c)%Z ->
  _set_timeout (Some c) w =
    ({| msg := set_timeout
                 (Some {| callback_conn := c;
                          callback_time := msg_timeout c;
                          _running := true |})
                 (set_conn (Some c) (msg w));
        retired := match timeout (msg w) with
                   | Some old => retired w ++ [stop old]
                   | None => retired w
                   end;
        log := log w;
        listeners := listeners w |},
     Returned tt).
Proof.
  intros Hc. world_fields w. unfold_methods. simpl.
  destruct (Z.leb_spec (msg_timeout c) 0) as [Hle|_]; [lia|].
  destruct tmo; reflexivity.
Qed.

(** [_set_timeout] with a connection whose [msg_timeout] is not positive:
    the connection is recorded and the handle stopped before the constructor
    raises [ValueError]; no handle is built. *)
Lemma _set_timeout_invalid (c : AsyncConn) (w : World) :
  (msg_timeout c <= 0)%Z ->
  _set_timeout (Some c) w =
    ({| msg := set_timeout (stop <$> timeout (msg w))
                 (set_conn (Some c) (msg w));
        retired := retired w;
        log := log w;
        listeners := listeners w |},
     Raised ValueError).
Proof.
  intros Hc. world_fields w. unfold_methods. simpl.
  destruct (Z.leb_spec (msg_timeout c) 0) as [_|Hlt]; [|lia].
  destruct tmo; reflexivity.
Qed.

Lemma call_set_timeout (c : AsyncConn) (w : World) :
  (0 < msg_timeout c)%Z ->
  fst (call (C_set_timeout c) w) =
    {| msg := set_timeout
                (Some {| callback_conn := c;
                         callback_time := msg_timeout c;
                         _running := true |})
                (set_conn (Some c) (msg w));
       retired := match timeout (msg w) with
                  | Some old => retired w ++ [stop old]
                  | None => retired w
                  end;
       log := log w;
       listeners := listeners w |}.
Proof.
  intros Hc. unfold call, bind. now rewrite _set_timeout_Some.
Qed.

(** C5 (amended): arm the timer of a message (in any state a message can
    be in) with a connection whose [msg_timeout] is positive, and let the
    handlers of [MESSAGE_TIMEOUT] return normally.  Then let anything happen
    except a re-arm ([touch], [_set_timeout]): deadlines of any handle,
    method calls, in any order.  At most one [MESSAGE_TIMEOUT] is triggered.
    The first deadline does trigger one and leaves the handle stopped
    ([is_alive] is [False]); from there on, without a re-arm, none is
    triggered again. *)
Theorem timeout_single_shot (w : World) (c : AsyncConn) (cs : list Call) :
  reachable w ->
  (0 < msg_timeout c)%Z ->
  timeout_handlers_return w ->
  forallb (fun c => negb (rearms c)) cs = true ->
  let w1 := fst (call (C_set_timeout c) w) in
  let w2 := fst (call (Cfire Current) w1) in
  firings (exec cs w1) <= firings w1 + 1 /\
  firings w2 = firings w1 + 1 /\
  snd (is_alive w2) = Returned (VBool false) /\
  firings (exec cs w2) = firings w2.
Proof.
  intros Hw Hc Hq Hcs w1 w2.
  apply reachable_invariants in Hw as [Hw _].
  pose proof (call_retired_stopped (C_set_timeout c) w Hw) as Hw1.
  pose proof (call_retired_stopped (Cfire Current) _ Hw1) as Hw2.
  fold w1 in Hw1, Hw2. fold w2 in Hw2.
  assert (Hq1 : timeout_handlers_return w1).
  { unfold timeout_handlers_return. subst w1. rewrite call_listeners.
    exact Hq. }
  assert (Hq2 : timeout_handlers_return w2).
  { unfold timeout_handlers_return. subst w2. rewrite call_listeners.
    exact Hq1. }
  assert (Ha1 : armed w1 = 1).
  { subst w1. rewrite call_set_timeout by assumption. reflexivity. }
  assert (Hfire : w2 =
    {| msg := set_timeout
                (Some {| callback_conn := c;
                         callback_time := msg_timeout c;
                         _running := false |})
                (msg w1);
       retired := retired w1;
       log := log w1 ++
              [{| target := OnConn c;
                  name := MESSAGE_TIMEOUT;
                  context := <["conn" := VMessage]>
                               (<["message" := VMessage]> ∅);
                  seen := msg w1 |}];
       listeners := listeners w1 |}).
  { subst w2. unfold call.
    rewrite (fire_current w1
               {| callback_conn := c; callback_time := msg_timeout c;
                  _running := true |});
      [|subst w1; rewrite call_set_timeout by assumption; reflexivity
       |reflexivity].
    simpl. rewrite Hq1 by reflexivity.
    subst w1. rewrite call_set_timeout by assumption. reflexivity. }
  assert (Ha2 : armed w2 = 0) by (rewrite Hfire; reflexivity).
  pose proof (exec_firings cs w1 Hcs Hw1 Hq1) as H1.
  pose proof (exec_firings cs w2 Hcs Hw2 Hq2) as H2.
  pose proof (exec_firings_mono cs w2) as H3.
  split; [lia|]. split; [|split; [|lia]].
  - rewrite Hfire. unfold firings. simpl. now rewrite firings_snoc.
  - rewrite Hfire. reflexivity.
Qed.

(** ** [is_alive] *)

(** Only a [_set_timeout] that succeeds gives a message its first handle. *)
Lemma call_keeps_unarmed (c : Call) (w : World) :
  arms c = false ->
  timeout (msg w) = None ->
  timeout (msg (fst (call c w))) = None.
Proof.
  intros Hc Ht. world_fields w. subst tmo.
  destruct c; unfold_methods; method_cases; try reflexivity.
  apply Z.leb_gt in Heqb0. apply Z.ltb_ge in Hc. lia.
Qed.

(** A handle, once there, is never dropped. *)
Lemma call_keeps_handle (c : Call) (w : World) :
  is_Some (timeout (msg w)) ->
  is_Some (timeout (msg (fst (call c w)))).
Proof.
  intros [pc Ht]. world_fields w. subst tmo.
  destruct c; unfold_methods; method_cases; eexists; reflexivity.
Qed.

Lemma exec_keeps_handle (cs : list Call) (w : World) :
  is_Some (timeout (msg w)) ->
  is_Some (timeout (msg (exec cs w))).
Proof.
  revert w. induction cs as [|c cs IH]; intros w H; simpl.
  - assumption.
  - apply IH. now apply call_keeps_handle.
Qed.

Lemma exec_unarmed (cs : list Call) (w : World) :
  existsb arms cs = false ->
  timeout (msg w) = None ->
  timeout (msg (exec cs w)) = None.
Proof.
  revert w. induction cs as [|c cs IH]; intros w Hcs Ht; simpl in *.
  - assumption.
  - apply orb_false_iff in Hcs as [Hc Hcs].
    apply IH; [assumption|]. now apply call_keeps_unarmed.
Qed.

Lemma exec_armed (cs : list Call) (w : World) :
  existsb arms cs = true ->
  is_Some (timeout (msg (exec cs w))).
Proof.
  revert w. induction cs as [|c cs IH]; intros w Hcs; simpl in *.
  - discriminate.
  - destruct (arms c) eqn:Hc; simpl in Hcs.
    + apply exec_keeps_handle.
      destruct c; try discriminate. simpl in Hc. apply Z.ltb_lt in Hc.
      rewrite call_set_timeout by assumption. eexists. reflexivity.
    + now apply IH.
Qed.

(** C6: on a message constructed by [__init__] and then used in any way,
    [is_alive] raises [AssertionError] (and changes nothing) as long as no
    [_set_timeout] has armed it (none was called, or only with connections
    whose [msg_timeout] the timer constructor refuses); once one has, it
    returns whether the current handle is running. *)
Theorem is_alive_contract
  (l : list Notification -> option exn)
  (id0 body0 : string) (timestamp0 attempts0 : Z) (cs : list Call) :
  let w := exec cs (new_world l (__init__ id0 body0 timestamp0 attempts0)) in
  (existsb arms cs = false ->
   is_alive w = (w, Raised AssertionError)) /\
  (existsb arms cs = true ->
   exists pc : PeriodicCallback,
     timeout (msg w) = Some pc /\
     is_alive w = (w, Returned (VBool (is_running pc)))).
Proof.
  intros w. split; intros Hcs.
  - assert (Ht : timeout (msg w) = None).
    { subst w. now apply exec_unarmed. }
    unfold is_alive. unfold_monad. now rewrite Ht.
  - destruct (exec_armed cs
                (new_world l (__init__ id0 body0 timestamp0 attempts0)) Hcs)
      as [pc Ht].
    fold w in Ht. exists pc. split; [assumption|].
    unfold is_alive. unfold_monad. now rewrite Ht.
Qed.

(** ** [touch] *)




(** * Concrete runs *)

(** [touch], [finish], then [requeue(delay=5)] and [finish] again: only the
    first [finish] returns. *)
Lemma respond_at_most_once_witness :
  successes [Ctouch; Cfinish; Cis_async; Crequeue delay5; Cfinish]
            fresh_world = 1 /\
  snd (call (Crequeue delay5)
         (exec ([Ctouch] ++ Cfinish :: [Cis_async]) fresh_world)) =
    Raised AssertionError.
Proof.
  split; [reflexivity|].
  apply (proj2 (respond_at_most_once fresh_world
                  [Ctouch; Cfinish; Cis_async; Crequeue delay5; Cfinish])
           [Ctouch] [Cis_async] [Cfinish] Cfinish (Crequeue delay5));
    reflexivity.
Defined.

Lemma disposition_failure_atomic_witness :
  let w := exec [Cfinish] armed_world in
  _has_responded (msg w) = true /\
  finish w = (w, Raised AssertionError) /\
  requeue delay5 w = (w, Raised AssertionError).
Proof.
  split; [reflexivity|].
  apply (disposition_failure_atomic (exec [Cfinish] armed_world) delay5).
  reflexivity.
Defined.

Lemma finish_spec_witness :
  _has_responded (msg armed_world) = false /\
  snd (finish armed_world) = Returned VNone /\
  log (fst (finish armed_world)) =
    [{| target := OnMessage;
        name := FINISH;
        context := <["message" := VMessage]> ∅;
        seen := msg (fst (finish armed_world)) |}] /\
  snd (is_alive (fst (finish armed_world))) = Returned (VBool false).
Proof.
  split; [reflexivity|].
  destruct (proj2 (finish_spec armed_world) eq_refl)
    as (Hfin & Hret & Halive).
  split; [apply Hret; reflexivity|]. split.
  - rewrite Hfin. reflexivity.
  - apply Halive. eexists. reflexivity.
Defined.

Lemma requeue_delay_normalisation_witness :
  _has_responded (msg fresh_world) = false /\
  delay5 !! "delay" = Some (VInt 5) /\
  clashes delay5 = false /\
  exists n : Notification,
    snd (requeue delay5 fresh_world) =
      answer fresh_world (log fresh_world ++ [n]) /\
    log (fst (requeue delay5 fresh_world)) = log fresh_world ++ [n] /\
    target n = OnMessage /\
    name n = REQUEUE /\
    ((0 < 5)%Z -> context n !! "time_ms" = Some (VInt (5 * 1000))) /\
    ((5 <= 0)%Z ->
     context n = <["message" := VMessage]> delay5 /\
     context n !! "delay" = Some (VInt 5) /\
     context n !! "time_ms" = delay5 !! "time_ms").
Proof.
  split; [reflexivity|]. split; [reflexivity|]. split; [reflexivity|].
  apply (requeue_delay_normalisation fresh_world delay5 (VInt 5) 5);
    reflexivity.
Defined.

Lemma requeue_keeps_delay_witness :
  exists n : Notification,
    log (fst (requeue delay5 armed_world)) = log armed_world ++ [n] /\
    name n = REQUEUE /\
    context n !! "delay" = Some (VInt 5) /\
    context n !! "time_ms" = Some (VInt (5 * 1000)) /\
    context n =
      <["message" := VMessage]> (<["time_ms" := VInt (5 * 1000)]> delay5).
Proof.
  apply (requeue_keeps_delay armed_world delay5 (VInt 5) 5); reflexivity.
Defined.

(** With a handler of [MESSAGE_TIMEOUT] that raises, the clear after the
    trigger is skipped: the handle armed once is still running after its
    first deadline, and the second deadline triggers a second
    notification, with no re-arm in between. *)
Lemma timeout_fires_again :
  let w1 := fst (call (C_set_timeout conn1)
                   (new_world loud (__init__ "id" "body" 1 1))) in
  let w2 := fst (call (Cfire Current) w1) in
  forallb (fun c => negb (rearms c)) [Cfire Current; Cfire Current] = true /\
  snd (is_alive w2) = Returned (VBool true) /\
  firings (exec [Cfire Current; Cfire Current] w1) = firings w1 + 2 /\
  ~ firings (exec [Cfire Current; Cfire Current] w1) <= firings w1 + 1.
Proof.
  split; [reflexivity|]. split; [reflexivity|]. split; [reflexivity|].
  vm_compute. lia.
Defined.

Lemma timeout_single_shot_witness :
  let cs := [Cfire Current; Cis_alive; Cfire Current; Cfire (Retired 0);
             Cfinish; Cfire Current] in
  let w1 := fst (call (C_set_timeout conn1) armed_world) in
  let w2 := fst (call (Cfire Current) w1) in
  firings (exec cs w1) <= firings w1 + 1 /\
  firings w2 = firings w1 + 1 /\
  snd (is_alive w2) = Returned (VBool false) /\
  firings (exec cs w2) = firings w2.
Proof.
  apply (timeout_single_shot armed_world conn1).
  - exists quiet, "id", "body", 1%Z, 1%Z, [C_set_timeout conn1].
    reflexivity.
  - reflexivity.
  - intros lg n Hn. reflexivity.
  - reflexivity.
Defined.

Lemma is_alive_contract_witness :
  is_alive (exec [Ctouch; C_set_timeout conn0] fresh_world) =
    (exec [Ctouch; C_set_timeout conn0] fresh_world,
     Raised AssertionError) /\
  exists pc : PeriodicCallback,
    timeout (msg (exec [C_set_timeout conn1; Cfinish] fresh_world)) =
      Some pc /\
    is_alive (exec [C_set_timeout conn1; Cfinish] fresh_world) =
      (exec [C_set_timeout conn1; Cfinish] fresh_world,
       Returned (VBool (is_running pc))).
Proof.
  split.
  - apply (proj1 (is_alive_contract quiet "id" "body" 1 1
                    [Ctouch; C_set_timeout conn0])).
    reflexivity.
  - apply (proj2 (is_alive_contract quiet "id" "body" 1 1
                    [C_set_timeout conn1; Cfinish])).
    reflexivity.
Defined.


(** [requeue(delay=-1)] and [requeue(delay=0)]: the context is what the
    caller passed, plus [message]. *)
Example requeue_minus_one :
  context <$> log (fst (requeue (<["delay" := VInt (-1)]> ∅) fresh_world)) =
  [<["message" := VMessage]> (<["delay" := VInt (-1)]> ∅)].
Proof. reflexivity. Qed.

Example requeue_zero :
  context <$> log (fst (requeue (<["delay" := VInt 0]> ∅) fresh_world)) =
  [<["message" := VMessage]> (<["delay" := VInt 0]> ∅)].
Proof. reflexivity. Qed.

Example requeue_five :
  context <$> log (fst (requeue delay5 fresh_world)) =
  [<["message" := VMessage]>
     (<["time_ms" := VInt 5000]> (<["delay" := VInt 5]> ∅))].
Proof. reflexivity. Qed.

(** * Further properties of the class *)

(** ** The two flags as functions of the calls made *)

Lemma call_async_flag (c : Call) (w : World) :
  _async_enabled (msg (fst (call c w))) =
  _async_enabled (msg w) || enables c.
Proof.
  world_fields w.
  destruct c; unfold_methods; method_cases; simpl;
    rewrite ?orb_false_r, ?orb_true_r; reflexivity.
Qed.


Lemma exec_async_flag (cs : list Call) (w : World) :
  _async_enabled (msg (exec cs w)) =
  _async_enabled (msg w) || existsb enables cs.
Proof.
  revert w. induction cs as [|c cs IH]; intros w; simpl.
  - now rewrite orb_false_r.
  - rewrite IH, call_async_flag. now rewrite orb_assoc.
Qed.


(** X1: on a message built by [__init__] and used in any way, [is_async]
    returns [True] exactly when [enable_async] was among the calls, and
    changes nothing; no other call sets the flag and none clears it. *)
Theorem is_async_reads_enable_async
  (l : list Notification -> option exn)
  (id0 body0 : string) (timestamp0 attempts0 : Z) (cs : list Call) :
  let w := exec cs (new_world l (__init__ id0 body0 timestamp0 attempts0)) in
  is_async w = (w, Returned (VBool (existsb enables cs))).
Proof.
  intros w. unfold is_async. unfold_monad. subst w.
  now rewrite exec_async_flag.
Qed.


(** ** [requeue]: the rest of its behaviour *)




Lemma requeue_kwargs_other (kwargs : gmap string value) (k : string) :
  k <> "time_ms" ->
  requeue_kwargs kwargs !! k = kwargs !! k.
Proof.
  intros Hk. unfold requeue_kwargs.
  destruct (kwargs !! "delay") as [v|]; [|reflexivity].
  destruct (as_int v) as [z|]; [|reflexivity].
  destruct (0 <? z)%Z; [|reflexivity].
  now rewrite lookup_insert_ne by congruence.
Qed.

(** X5: whatever [delay] is, [requeue] (with keywords that the [trigger]
    call does not bind itself) hands every keyword other than [time_ms] to
    the listener as the caller passed it ([backoff], [delay] itself, any
    other), and adds no keyword but [time_ms] and [message]. *)
Theorem requeue_keeps_keywords
  (w : World) (kwargs : gmap string value) :
  _has_responded (msg w) = false ->
  clashes kwargs = false ->
  exists n : Notification,
    log (fst (requeue kwargs w)) = log w ++ [n] /\
    name n = REQUEUE /\
    forall k : string,
      k <> "time_ms" -> k <> "message" ->
      context n !! k = kwargs !! k.
Proof.
  intros H Hm. rewrite (requeue_pending kwargs w H Hm).
  eexists. split; [reflexivity|]. split; [reflexivity|].
  intros k Hk1 Hk2. simpl.
  rewrite lookup_insert_ne by congruence.
  now apply requeue_kwargs_other.
Qed.

(** X6: without [delay], or with a [delay] that is not an [int] (a string,
    [None]), [requeue] (with keywords that the [trigger] call does not bind
    itself) computes no [time_ms]: the context is the caller's keywords
    plus [message]. *)
Theorem requeue_without_int_delay
  (w : World) (kwargs : gmap string value) :
  _has_responded (msg w) = false ->
  clashes kwargs = false ->
  kwargs !! "delay" ≫= as_int = None ->
  exists n : Notification,
    snd (requeue kwargs w) = answer w (log w ++ [n]) /\
    log (fst (requeue kwargs w)) = log w ++ [n] /\
    name n = REQUEUE /\
    context n = <["message" := VMessage]> kwargs.
Proof.
  intros H Hm Hd. rewrite (requeue_pending kwargs w H Hm).
  assert (Hk : requeue_kwargs kwargs = kwargs).
  { unfold requeue_kwargs.
    destruct (kwargs !! "delay") as [v|]; [|reflexivity].
    simpl in Hd. now rewrite Hd. }
  rewrite Hk. eexists. split; [reflexivity|]. split; [reflexivity|].
  split; reflexivity.
Qed.

(** A [bool] is an [int] in Python: [delay=True] is a delay of one second,
    [delay=False] none. *)
Example requeue_delay_true :
  context <$> log (fst (requeue (<["delay" := VBool true]> ∅) fresh_world)) =
  [<["message" := VMessage]>
     (<["time_ms" := VInt 1000]> (<["delay" := VBool true]> ∅))].
Proof. reflexivity. Qed.

(** ** Handles and connections *)

Lemma call_handle_of_conn (c : Call) (w : World) :
  handle_of_conn w -> handle_of_conn (fst (call c w)).
Proof.
  unfold handle_of_conn. intros H. world_fields w.
  destruct c; unfold_methods; method_cases; simpl in *;
    simplify_eq; simpl in *; try tauto;
    try (apply Z.leb_gt in Heqb0; tauto);
    try (destruct H as (H1 & H2 & H3); simplify_eq; simpl in *;
         repeat split; try assumption; try reflexivity;
         try discriminate; try (intros; congruence);
         try (apply Z.leb_gt; assumption); tauto).
Qed.

Lemma exec_handle_of_conn (cs : list Call) (w : World) :
  handle_of_conn w -> handle_of_conn (exec cs w).
Proof.
  revert w. induction cs as [|c cs IH]; intros w H; simpl.
  - assumption.
  - apply IH. now apply call_handle_of_conn.
Qed.

Lemma reachable_handle_of_conn (w : World) :
  reachable w -> handle_of_conn w.
Proof.
  intros (l & id0 & body0 & timestamp0 & attempts0 & cs & ->).
  apply exec_handle_of_conn. exact I.
Qed.

(** X7: whatever was done to a message since [__init__], its handle (if it
    has one) was built from a connection with a positive [msg_timeout], its
    period; while the handle runs, that connection is the one the message
    records, and a deadline triggers [MESSAGE_TIMEOUT] on it.  (A stopped
    handle may belong to an earlier connection: a [_set_timeout] that the
    timer constructor refuses records its connection and builds
    nothing.) *)
Theorem handle_follows_connection (w : World) (pc : PeriodicCallback) :
  reachable w ->
  timeout (msg w) = Some pc ->
  callback_time pc = msg_timeout (callback_conn pc) /\
  (0 < callback_time pc)%Z /\
  (_running pc = true ->
   conn (msg w) = Some (callback_conn pc) /\
   exists n : Notification,
     log (fst (call (Cfire Current) w)) = log w ++ [n] /\
     name n = MESSAGE_TIMEOUT /\
     target n = OnConn (callback_conn pc)).
Proof.
  intros Hw Ht. apply reachable_handle_of_conn in Hw.
  unfold handle_of_conn in Hw. rewrite Ht in Hw.
  destruct Hw as (Hp & Hpos & Hc).
  split; [assumption|]. split; [assumption|].
  intros Hr. split; [now apply Hc|].
  unfold call. rewrite (fire_current w pc Ht Hr).
  eexists. split; [reflexivity|]. split; reflexivity.
Qed.

(** X8: the handles a message no longer refers to are all stopped, so at
    most one handle of a message is ever running, and a deadline of a
    replaced handle does nothing. *)
Theorem replaced_handles_are_stopped (w : World) :
  reachable w ->
  Forall (fun pc => _running pc = false) (retired w) /\
  forall i : nat, call (Cfire (Retired i)) w = (w, Returned VNone).
Proof.
  intros Hw. apply reachable_invariants in Hw as [Hw _].
  split; [exact Hw|].
  intros i. unfold call, _run, lookup_timer, is_running.
  destruct (retired w !! i) as [pc|] eqn:Hi; [|reflexivity].
  now rewrite (retired_not_running (retired w) i pc Hw Hi).
Qed.

(** ** No timeout for a message that was answered *)





(** X10: [touch] on a message that has not responded, has a handle and
    records a connection with a positive [msg_timeout] makes it alive
    again, whether the handle was running, had fired or had been cleared:
    [is_alive] returns [True], [touch] itself triggers no timeout, and the
    next deadline triggers one.  [touch] returns unless a listener of
    [TOUCH] raises. *)
Theorem touch_revives (w : World) (pc : PeriodicCallback) (c : AsyncConn) :
  _has_responded (msg w) = false ->
  timeout (msg w) = Some pc ->
  conn (msg w) = Some c ->
  (0 < msg_timeout c)%Z ->
  let w1 := fst (touch w) in
  snd (touch w) = answer w (log w1) /\
  snd (is_alive w1) = Returned (VBool true) /\
  firings w1 = firings w /\
  firings (fst (call (Cfire Current) w1)) = firings w + 1.
Proof.
  intros Hr Ht Hc Hpos w1. subst w1.
  world_fields w. subst hr tmo cn.
  unfold firings, answer. unfold_methods. simpl.
  destruct (Z.leb_spec (msg_timeout c) 0) as [Hle|_]; [lia|]. simpl.
  unfold set_timeout, set_conn, start, stop; simpl.
  match goal with
  | |- context [ls ?l] => destruct (ls l) eqn:Hl
  end; simpl; rewrite ?Hl;
    match goal with
    | |- context [ls ?l] => destruct (ls l) eqn:Hl2
    | _ => idtac
    end; simpl; rewrite ?firings_snoc; simpl; repeat split; lia.
Qed.

(** ** What listeners are told *)

Lemma Forall_snoc_wf (lg : list Notification) (n : Notification) :
  Forall well_formed lg -> well_formed n -> Forall well_formed (lg ++ [n]).
Proof.
  intros Hl Hn. apply Forall_app. split; [assumption|].
  constructor; [assumption|constructor].
Qed.

Lemma call_well_formed (c : Call) (w : World) :
  retired_stopped w ->
  Forall well_formed (log w) ->
  Forall well_formed (log (fst (call c w))).
Proof.
  unfold retired_stopped. intros Hrt H. world_fields w.
  destruct c; unfold_methods; destruct hr; destruct tmo as [pc|];
    simpl; try assumption;
    repeat match goal with
      | |- context [match ?x with _ => _ end] =>
          lazymatch type of x with
          | prod _ _ => fail
          | _ => destruct x eqn:?; simpl
          end
      end;
    try assumption;
    try (apply Forall_snoc_wf; [assumption|];
         unfold well_formed, handle_stopped, handle_running; simpl;
         repeat split; try reflexivity; try assumption;
         try (eexists; reflexivity);
         try (now rewrite lookup_insert_eq)).
  all: destruct r; simplify_eq; try congruence;
    match goal with
    | Hs : Forall _ ?l, Hl : ?l !! _ = Some ?p, Hrun : _running ?p = true
      |- _ =>
        rewrite (retired_not_running l _ p Hs Hl) in Hrun; discriminate
    end.
Qed.

Lemma exec_well_formed (cs : list Call) (w : World) :
  retired_stopped w ->
  Forall well_formed (log w) ->
  Forall well_formed (log (exec cs w)).
Proof.
  revert w. induction cs as [|c cs IH]; intros w Hrt H; simpl.
  - assumption.
  - apply IH.
    + now apply call_retired_stopped.
    + now apply call_well_formed.
Qed.

(** X11: every notification a message ever causes has the shape its
    [trigger] call gives it.  [FINISH], [REQUEUE] and [TOUCH] are triggered
    on the message, [MESSAGE_TIMEOUT] on a connection; all bind [message]
    to the message, and [FINISH] and [TOUCH] bind nothing else.  A listener
    of [FINISH] or [REQUEUE] finds [has_responded()] true and the handle
    stopped; a listener of [TOUCH] finds it false and the handle, if any,
    running again; a listener of [MESSAGE_TIMEOUT] finds the handle still
    running. *)
Theorem notifications_well_formed (w : World) (n : Notification) :
  reachable w ->
  In n (log w) ->
  well_formed n.
Proof.
  intros (l & id0 & body0 & timestamp0 & attempts0 & cs & ->) Hn.
  assert (H : Forall well_formed
                (log (exec cs (new_world l
                                 (__init__ id0 body0 timestamp0 attempts0))))).
  { apply exec_well_formed; constructor. }
  rewrite List.Forall_forall in H. now apply H.
Qed.

(** 1 while the message can still be answered, 0 afterwards. *)
Lemma call_responses_bound (c : Call) (w : World) :
  responses (fst (call c w)) +
    (if _has_responded (msg (fst (call c w))) then 0 else 1) <=
  responses w + (if _has_responded (msg w) then 0 else 1).
Proof.
  world_fields w.
  destruct c; unfold responses; unfold_methods;
    destruct hr; destruct tmo as [pc|]; simpl;
    repeat match goal with
      | |- context [match ?x with _ => _ end] =>
          lazymatch type of x with
          | prod _ _ => fail
          | _ => destruct x eqn:?; simpl
          end
      end;
    rewrite ?List.filter_app, ?length_app; simpl; lia.
Qed.

(** A disposition call that returns has triggered its notification. *)
Lemma call_responses_success (c : Call) (w : World) :
  responses w + (if succeeds c w then 1 else 0) <=
  responses (fst (call c w)).
Proof.
  world_fields w.
  destruct c; unfold succeeds, responses; unfold_methods;
    destruct hr; destruct tmo as [pc|]; simpl;
    repeat match goal with
      | |- context [match ?x with _ => _ end] =>
          lazymatch type of x with
          | prod _ _ => fail
          | _ => destruct x eqn:?; simpl
          end
      end;
    rewrite ?List.filter_app, ?length_app; simpl in *;
    try discriminate; lia.
Qed.

(** X12: a message causes at most one [FINISH] or [REQUEUE] notification
    in its life, whatever the calls and whatever the listeners do, and
    every [finish] or [requeue] that returned has caused one. *)
Theorem one_response_notification
  (l : list Notification -> option exn)
  (id0 body0 : string) (timestamp0 attempts0 : Z) (cs : list Call) :
  let w0 := new_world l (__init__ id0 body0 timestamp0 attempts0) in
  successes cs w0 <= responses (exec cs w0) /\
  responses (exec cs w0) <= 1.
Proof.
  intros w0. split.
  - assert (Hgen : forall w,
              responses w + successes cs w <= responses (exec cs w)).
    { induction cs as [|c cs IH]; intros w; simpl.
      - lia.
      - pose proof (IH (fst (call c w))).
        pose proof (call_responses_success c w). lia. }
    pose proof (Hgen w0). lia.
  - assert (Hgen : forall w,
              responses (exec cs w) +
                (if _has_responded (msg (exec cs w)) then 0 else 1) <=
              responses w + (if _has_responded (msg w) then 0 else 1)).
    { induction cs as [|c cs IH]; intros w; simpl.
      - lia.
      - pose proof (IH (fst (call c w))).
        pose proof (call_responses_bound c w). lia. }
    pose proof (Hgen w0) as H. change (responses w0) with 0 in H.
    simpl in H. lia.
Qed.

(** ** [_clear_timeout] *)

(** X13: [_clear_timeout] never raises and triggers nothing.  On a message
    without a handle it changes nothing; otherwise it stops the handle and
    keeps it, so that [is_alive] returns [False] instead of raising.
    Clearing twice is clearing once. *)
Theorem clear_timeout_idempotent (w : World) :
  let w1 := fst (call C_clear_timeout w) in
  snd (call C_clear_timeout w) = Returned VNone /\
  log w1 = log w /\
  fst (call C_clear_timeout w1) = w1 /\
  (timeout (msg w) = None -> w1 = w) /\
  (is_Some (timeout (msg w)) ->
   is_alive w1 = (w1, Returned (VBool false))).
Proof.
  intros w1. subst w1. world_fields w.
  destruct tmo as [pc|]; simpl; repeat split; try reflexivity.
  - discriminate.
  - intros [pc Hpc]. discriminate.
Qed.

(** ** [_set_timeout] *)

(** X14: [_set_timeout] has no guard on the state of the message: responded
    or not, it records the connection and stops the handle, if any.  With a
    positive [msg_timeout] it returns and leaves the flags and the
    notifications as they were and the message alive with a fresh handle of
    that period, and the next deadline triggers one [MESSAGE_TIMEOUT] on
    that connection.  With a [msg_timeout] that is not positive the timer
    constructor raises [ValueError]: the connection stays recorded, the old
    handle stays stopped, and no handle is built. *)
Theorem set_timeout_unguarded (w : World) (c : AsyncConn) :
  let w1 := fst (call (C_set_timeout c) w) in
  conn (msg w1) = Some c /\
  _has_responded (msg w1) = _has_responded (msg w) /\
  _async_enabled (msg w1) = _async_enabled (msg w) /\
  log w1 = log w /\
  ((0 < msg_timeout c)%Z ->
   snd (call (C_set_timeout c) w) = Returned VNone /\
   timeout (msg w1) = Some {| callback_conn := c;
                              callback_time := msg_timeout c;
                              _running := true |} /\
   is_alive w1 = (w1, Returned (VBool true)) /\
   exists n : Notification,
     log (fst (call (Cfire Current) w1)) = log w ++ [n] /\
     name n = MESSAGE_TIMEOUT /\
     target n = OnConn c) /\
  ((msg_timeout c <= 0)%Z ->
   snd (call (C_set_timeout c) w) = Raised ValueError /\
   timeout (msg w1) = stop <$> timeout (msg w) /\
   retired w1 = retired w /\
   call (Cfire Current) w1 = (w1, Returned VNone)).
Proof.
  intros w1. subst w1. unfold call, bind.
  destruct (Z.leb_spec (msg_timeout c) 0) as [Hle|Hlt].
  - rewrite (_set_timeout_invalid c w Hle). simpl.
    split; [reflexivity|]. split; [reflexivity|]. split; [reflexivity|].
    split; [reflexivity|]. split; [intros; lia|].
    intros _. split; [reflexivity|]. split; [reflexivity|].
    split; [reflexivity|].
    unfold _run, lookup_timer, is_running. simpl.
    destruct (timeout (msg w)); reflexivity.
  - assert (Hfire : exists n : Notification,
      log (fst (_run Current (fst (_set_timeout (Some c) w)))) =
        log w ++ [n] /\
      name n = MESSAGE_TIMEOUT /\ target n = OnConn c).
    { rewrite (_set_timeout_Some c w Hlt).
      rewrite (fire_current _ {| callback_conn := c;
                                 callback_time := msg_timeout c;
                                 _running := true |});
        [|reflexivity|reflexivity].
      eexists. split; [reflexivity|]. split; reflexivity. }
    rewrite (_set_timeout_Some c w Hlt) in *.
    split; [reflexivity|]. split; [reflexivity|]. split; [reflexivity|].
    split; [reflexivity|]. split; [|intros; lia].
    intros _. split; [reflexivity|]. split; [reflexivity|].
    split; [reflexivity|]. exact Hfire.
Qed.

(** * Concrete runs of the further properties *)



Lemma requeue_keeps_keywords_witness :
  exists n : Notification,
    log (fst (requeue no_backoff fresh_world)) = log fresh_world ++ [n] /\
    name n = REQUEUE /\
    forall k : string,
      k <> "time_ms" -> k <> "message" ->
      context n !! k = no_backoff !! k.
Proof.
  apply (requeue_keeps_keywords fresh_world no_backoff); reflexivity.
Defined.

Lemma requeue_without_int_delay_witness :
  exists n : Notification,
    snd (requeue delay_text fresh_world) =
      answer fresh_world (log fresh_world ++ [n]) /\
    log (fst (requeue delay_text fresh_world)) = log fresh_world ++ [n] /\
    name n = REQUEUE /\
    context n = <["message" := VMessage]> delay_text.
Proof.
  apply (requeue_without_int_delay fresh_world delay_text); reflexivity.
Defined.

Lemma handle_follows_connection_witness :
  let w := exec [C_set_timeout conn1; C_set_timeout conn2] fresh_world in
  conn (msg w) = Some conn2 /\
  exists n : Notification,
    log (fst (call (Cfire Current) w)) = log w ++ [n] /\
    name n = MESSAGE_TIMEOUT /\
    target n = OnConn conn2.
Proof.
  intros w.
  assert (Hw : reachable w).
  { exists quiet, "id", "body", 1%Z, 1%Z,
      [C_set_timeout conn1; C_set_timeout conn2]. reflexivity. }
  destruct (handle_follows_connection w
              {| callback_conn := conn2; callback_time := 30000;
                 _running := true |} Hw eq_refl) as (_ & _ & Hfire).
  exact (Hfire eq_refl).
Defined.

Lemma replaced_handles_are_stopped_witness :
  let w := exec [C_set_timeout conn1; C_set_timeout conn2] fresh_world in
  length (retired w) = 1 /\
  call (Cfire (Retired 0)) w = (w, Returned VNone).
Proof.
  intros w. split; [reflexivity|].
  assert (Hw : reachable w).
  { exists quiet, "id", "body", 1%Z, 1%Z,
      [C_set_timeout conn1; C_set_timeout conn2]. reflexivity. }
  exact (proj2 (replaced_handles_are_stopped w Hw) 0).
Defined.


Lemma touch_revives_witness :
  snd (is_alive fired_world) = Returned (VBool false) /\
  snd (is_alive (fst (touch fired_world))) = Returned (VBool true) /\
  firings (fst (call (Cfire Current) (fst (touch fired_world)))) =
    firings fired_world + 1.
Proof.
  split; [reflexivity|].
  destruct (touch_revives fired_world
              {| callback_conn := conn1; callback_time := 60000;
                 _running := false |}
              conn1 eq_refl eq_refl eq_refl eq_refl)
    as (_ & Halive & _ & Hfire).
  split; [exact Halive | exact Hfire].
Defined.

Lemma notifications_well_formed_witness :
  well_formed {| target := OnMessage;
                 name := TOUCH;
                 context := <["message" := VMessage]> ∅;
                 seen := msg (fst (touch fired_world)) |}.
Proof.
  apply (notifications_well_formed (fst (call Ctouch fired_world))).
  - exists quiet, "id", "body", 1%Z, 1%Z,
      [C_set_timeout conn1; Cfire Current; Ctouch].
    reflexivity.
  - simpl. right. left. reflexivity.
Defined.
